(** * mattress: a container for secrets held in protected memory

    A shallow embedding of [mattress.go] (the revision with the mutex):
    the type [Secret[T]] with [NewSecret], [zero], [Expose] and [String].

    The package is a thin layer over three collaborators that are not part
    of it: [encoding/gob] (the serializer), [memguard] (the protected
    memory) and the Go runtime ([sync.Mutex], finalizers).  The serializer
    is a parameter (class [Gob]); the memory and the runtime are an
    explicit store ([World]) threaded through a small monad ([Go]) that
    also records panics, blocking and the accesses made to mutexes and
    locked buffers. *)

From Stdlib Require Import Strings.Byte.
From stdpp Require Import gmap strings list.

Open Scope string_scope.
Open Scope list_scope.

(** ** Values shared by the collaborators *)

(** A Go [error] value, identified by its message. *)
Definition error := string.

(** Addresses of heap objects (backing arrays, enclaves, locked buffers,
    [Secret] structs).  A Go pointer is an [option addr]: [None] is nil. *)
Definition addr := nat.
Definition pointer := option addr.

Definition zeros (n : nat) : list byte := replicate n x00.

Definition is_zero (b : byte) : bool :=
  match b with x00 => true | _ => false end.

(** A byte region is wiped when every byte of it is zero. *)
Definition wiped (bs : list byte) : bool := forallb is_zero bs.

(** ** The serializer capability ([encoding/gob])

    [Encode v] is the pair of the bytes the encoder wrote to its writer
    and the error it returned: an encoder can fail after it has written
    (gob sends type descriptors before it encodes the value).
    [Decode bs t] decodes [bs] into a target that holds [t] and gives the
    target afterwards with the error returned. *)
Class Gob (T : Type) := {
  zero_value : T;
  Encode : T -> list byte * option error;
  Decode : list byte -> T -> T * option error;
}.

(** What the package relies on from gob: a message is never empty, a
    message decodes to the value it was made from, and an exhausted
    reader yields [io.EOF] without touching the target. *)
Class GobLaws (T : Type) `{Gob T} : Prop := {
  Encode_nonempty : forall v bs, Encode v = (bs, None) -> bs <> [];
  Decode_Encode : forall v bs,
      Encode v = (bs, None) -> Decode bs zero_value = (v, None);
  Decode_EOF : forall t, Decode [] t = (t, Some "EOF");
}.

(** ** The store *)

(** [memguard.LockedBuffer]: [Destroy] clears [alive] and drops the data. *)
Record LockedBuffer := mkLockedBuffer {
  alive : bool;
  data : list byte;
}.

(** [type Secret[T any] struct { buffer *memguard.LockedBuffer; mutex sync.Mutex }];
    [mutex] is [true] while the mutex is locked. *)
Record Secret := mkSecret {
  buffer : pointer;
  mutex : bool;
}.

Record World := mkWorld {
  slices : gmap addr (list byte);     (* backing arrays of ordinary byte slices *)
  enclaves : gmap addr (list byte);   (* sealed copies held by memguard *)
  buffers : gmap addr LockedBuffer;   (* memguard's locked buffers *)
  secrets : gmap addr Secret;         (* the Secret structs on the heap *)
  finalizers : gset addr;             (* secrets with a finalizer set *)
  open_err : option error;            (* the error opening an enclave meets, if any *)
}.

Definition empty_world : World := mkWorld ∅ ∅ ∅ ∅ ∅ None.

Definition set_slices (f : gmap addr (list byte) -> gmap addr (list byte)) (w : World) : World :=
  mkWorld (f (slices w)) (enclaves w) (buffers w) (secrets w) (finalizers w) (open_err w).
Definition set_enclaves (f : gmap addr (list byte) -> gmap addr (list byte)) (w : World) : World :=
  mkWorld (slices w) (f (enclaves w)) (buffers w) (secrets w) (finalizers w) (open_err w).
Definition set_buffers (f : gmap addr LockedBuffer -> gmap addr LockedBuffer) (w : World) : World :=
  mkWorld (slices w) (enclaves w) (f (buffers w)) (secrets w) (finalizers w) (open_err w).
Definition set_secrets (f : gmap addr Secret -> gmap addr Secret) (w : World) : World :=
  mkWorld (slices w) (enclaves w) (buffers w) (f (secrets w)) (finalizers w) (open_err w).
Definition set_finalizers (f : gset addr -> gset addr) (w : World) : World :=
  mkWorld (slices w) (enclaves w) (buffers w) (secrets w) (f (finalizers w)) (open_err w).

(** ** The monad of Go code *)

(** Accesses to a secret's mutex and to locked buffers, in program order. *)
Inductive Event :=
| EvLock (s : addr)
| EvUnlock (s : addr)
| EvOpen (b : addr)
| EvBytes (b : addr)
| EvDestroy (b : addr).

(** A call returns, panics, or blocks for ever on a held mutex. *)
Inductive Outcome (A : Type) :=
| Returned (a : A)
| Panicked (msg : string)
| Blocked.
Arguments Returned {A} a.
Arguments Panicked {A} msg.
Arguments Blocked {A}.

Record Run (A : Type) := mkRun {
  out : Outcome A;
  world : World;
  events : list Event;
}.
Arguments mkRun {A} out world events.
Arguments out {A} r.
Arguments world {A} r.
Arguments events {A} r.

Definition Go (A : Type) := World -> Run A.

Definition ret {A} (a : A) : Go A := fun w => mkRun (Returned a) w [].

Definition bind {A B} (m : Go A) (k : A -> Go B) : Go B := fun w =>
  let r := m w in
  match out r with
  | Returned a =>
      let r' := k a (world r) in
      mkRun (out r') (world r') (events r ++ events r')
  | Panicked msg => mkRun (Panicked msg) (world r) (events r)
  | Blocked => mkRun Blocked (world r) (events r)
  end.

Notation "x <- m ;; k" := (bind m (fun x => k))
  (at level 100, m at next level, right associativity).
Notation "m ;;; k" := (bind m (fun _ => k))
  (at level 100, right associativity).

Definition panic {A} (msg : string) : Go A := fun w => mkRun (Panicked msg) w [].
Definition get : Go World := fun w => mkRun (Returned w) w [].
Definition modify (f : World -> World) : Go unit := fun w => mkRun (Returned tt) (f w) [].
Definition emit (e : Event) : Go unit := fun w => mkRun (Returned tt) w [e].

Definition nil_dereference : string :=
  "runtime error: invalid memory address or nil pointer dereference".

(** [defer d; body]: [d] runs when [body] returns or panics, and a panic
    of [body] goes on after it.  A blocked body never reaches it. *)
Definition defer {A} (d : Go unit) (body : Go A) : Go A := fun w =>
  let r := body w in
  match out r with
  | Blocked => r
  | _ =>
      let r' := d (world r) in
      match out r' with
      | Returned _ => mkRun (out r) (world r') (events r ++ events r')
      | Panicked msg => mkRun (Panicked msg) (world r') (events r ++ events r')
      | Blocked => mkRun Blocked (world r') (events r ++ events r')
      end
  end.

(** ** The collaborators, as the package calls them *)

Module bytes.

(** [var buf bytes.Buffer]: a buffer with nothing written.  The result is
    the address of its backing array; [buf.Bytes()] is a slice of that
    same array, so it is denoted by the same address. *)
Definition NewBuffer : Go addr :=
  w <- get ;;
  let a := fresh (dom (slices w)) in
  modify (set_slices <[a := []]>) ;;;
  ret a.

(** [buf.Write(p)]: append [p] to the backing array. *)
Definition Write (a : addr) (p : list byte) : Go unit :=
  modify (set_slices (alter (fun old => old ++ p) a)).

(** The bytes a slice holds; a nil or dangling slice holds none. *)
Definition contents (a : addr) (w : World) : list byte :=
  match slices w !! a with
  | Some held => held
  | None => []
  end.

End bytes.

Module gob.

(** [gob.NewEncoder(&buf).Encode(data)]: the encoder writes to [buf] and
    returns its error. *)
Definition EncodeTo {T} `{Gob T} (buf : addr) (v : T) : Go (option error) :=
  let '(written, err) := Encode v in
  bytes.Write buf written ;;;
  ret err.

End gob.

Module memguard.

(** [memguard.WipeBytes(buf)]: overwrite the slice with zeros. *)
Definition WipeBytes (a : addr) : Go unit :=
  modify (set_slices (alter (fun old => zeros (length old)) a)).

(** [memguard.NewEnclave(src)]: seal a copy of [src] and wipe [src]; an
    empty [src] gives a nil enclave and nothing is sealed. *)
Definition NewEnclave (src : addr) : Go pointer :=
  w <- get ;;
  match bytes.contents src w with
  | [] => ret None
  | plaintext =>
      let e := fresh (dom (enclaves w)) in
      modify (set_enclaves <[e := plaintext]>) ;;;
      WipeBytes src ;;;
      ret (Some e)
  end.

(** [enclave.Open()]: decrypt the enclave into a fresh locked buffer, or
    report the decryption error and allocate nothing.  A nil enclave is
    dereferenced. *)
Definition Open (enclave : pointer) : Go (pointer * option error) :=
  match enclave with
  | None => panic nil_dereference
  | Some e =>
      w <- get ;;
      match enclaves w !! e with
      | None => panic nil_dereference
      | Some plaintext =>
          match open_err w with
          | Some err => ret (None, Some err)
          | None =>
              let b := fresh (dom (buffers w)) in
              modify (set_buffers <[b := mkLockedBuffer true plaintext]>) ;;;
              emit (EvOpen b) ;;;
              ret (Some b, None)
          end
      end
  end.

(** [b.Bytes()]: the bytes of the buffer; none once it is destroyed. *)
Definition Bytes (b : pointer) : Go (list byte) :=
  match b with
  | None => panic nil_dereference
  | Some b =>
      w <- get ;;
      match buffers w !! b with
      | None => panic nil_dereference
      | Some lb =>
          emit (EvBytes b) ;;;
          ret (if alive lb then data lb else [])
      end
  end.

(** [b.Destroy()]: wipe and free the buffer; a destroyed buffer is left
    as it is. *)
Definition Destroy (b : pointer) : Go unit :=
  match b with
  | None => panic nil_dereference
  | Some b =>
      w <- get ;;
      match buffers w !! b with
      | None => panic nil_dereference
      | Some lb =>
          emit (EvDestroy b) ;;;
          if alive lb
          then modify (set_buffers <[b := mkLockedBuffer false []]>)
          else ret tt
      end
  end.

End memguard.

(** Reading a field of [*s]; a nil receiver is dereferenced. *)
Definition load (s : pointer) : Go Secret :=
  match s with
  | None => panic nil_dereference
  | Some a =>
      w <- get ;;
      match secrets w !! a with
      | None => panic nil_dereference
      | Some sec => ret sec
      end
  end.

Module sync.

(** [s.mutex.Lock()]: take the mutex, or wait for ever if it is held. *)
Definition Lock (s : pointer) : Go unit :=
  sec <- load s ;;
  match s with
  | None => panic nil_dereference
  | Some a =>
      if mutex sec then (fun w => mkRun Blocked w [])
      else
        modify (set_secrets <[a := mkSecret (buffer sec) true]>) ;;;
        emit (EvLock a)
  end.

(** [s.mutex.Unlock()]: release the mutex; releasing a free mutex is a
    fatal error. *)
Definition Unlock (s : pointer) : Go unit :=
  sec <- load s ;;
  match s with
  | None => panic nil_dereference
  | Some a =>
      if mutex sec
      then
        modify (set_secrets <[a := mkSecret (buffer sec) false]>) ;;;
        emit (EvUnlock a)
      else panic "fatal error: sync: unlock of unlocked mutex"
  end.

End sync.

Module runtime.

(** [runtime.SetFinalizer(secret, f)]: remember that [secret] has a
    finalizer (the package sets one function only, [s.zero()]). *)
Definition SetFinalizer (s : addr) : Go unit :=
  modify (set_finalizers (fun fs => {[s]} ∪ fs)).

End runtime.

(** [&Secret[T]{buffer: buffer}]: a new struct, its mutex free. *)
Definition new_Secret (buffer : pointer) : Go addr :=
  w <- get ;;
  let s := fresh (dom (secrets w)) in
  modify (set_secrets <[s := mkSecret buffer false]>) ;;;
  ret s.

(** ** The package *)

Module mattress.
Section Mattress.

Context {T : Type} `{Gob T}.

(** [func NewSecret[T any](data T)], returning a [*Secret[T]] and an [error]. *)
Definition NewSecret (data : T) : Go (pointer * option error) :=
  buf <- bytes.NewBuffer ;;
  err <- gob.EncodeTo buf data ;;
  match err with
  | Some e => ret (None, Some e)
  | None =>
      let bytes := buf in
      enclave <- memguard.NewEnclave bytes ;;
      opened <- memguard.Open enclave ;;
      let '(buffer, err) := opened in
      match err with
      | Some e => ret (None, Some e)
      | None =>
          memguard.WipeBytes bytes ;;;
          secret <- new_Secret buffer ;;
          runtime.SetFinalizer secret ;;;
          ret (Some secret, None)
      end
  end.

(** [func (s *Secret[T]) zero()] *)
Definition zero (s : pointer) : Go unit :=
  sec <- load s ;;
  memguard.Destroy (buffer sec).

(** [func (s *Secret[T]) Expose() T] *)
Definition Expose (s : pointer) : Go T :=
  sync.Lock s ;;;
  defer (sync.Unlock s) (
    let data := zero_value in
    sec <- load s ;;
    region <- memguard.Bytes (buffer sec) ;;
    let '(data, _) := Decode region data in
    ret data).

(** [func (s *Secret[T]) String() string] *)
Definition String (s : pointer) : Go string := ret "[SECRET]".

(** The finalizer set by [NewSecret]: [func(s *Secret[T]) { s.zero() }],
    run by the collector on a secret that has one. *)
Definition run_finalizer (s : addr) : Go unit :=
  w <- get ;;
  if decide (s ∈ finalizers w)
  then modify (set_finalizers (fun fs => fs ∖ {[s]})) ;;; zero (Some s)
  else ret tt.

End Mattress.
End mattress.

(** ** Two serializers to run the package on

    Small stand-ins for gob at two payload types; they keep the shape of
    its messages, not its wire format. *)

(** Go [string] values: a message is the type id, the field delta and the
    bytes of the string. *)
Definition string_Encode (s : string) : list byte * option error :=
  (x0c :: x00 :: String.list_byte_of_string s, None).

Definition string_Decode (bs : list byte) (t : string) : string * option error :=
  match bs with
  | [] => (t, Some "EOF")
  | x0c :: x00 :: payload => (String.string_of_list_byte payload, None)
  | _ => (t, Some "gob: type mismatch")
  end.

#[export] Instance string_Gob : Gob string :=
  {| zero_value := ""; Encode := string_Encode; Decode := string_Decode |}.

(** Go [[]*uint8] values ([None] is a nil element): the type descriptor
    goes to the writer first, and encoding the elements fails on a nil
    one, after the descriptor was written. *)
Definition descriptor : list byte := [x0d; xff; x83; x02; x01; x02; xff; x84].

Fixpoint elements (l : list (option byte)) : option (list byte) :=
  match l with
  | [] => Some []
  | Some b :: l' => cons b <$> elements l'
  | None :: _ => None
  end.

Definition ptrs_Encode (l : list (option byte)) : list byte * option error :=
  match elements l with
  | Some payload => (descriptor ++ payload, None)
  | None => (descriptor, Some "gob: encodeArray: nil element")
  end.

Fixpoint strip (prefix bs : list byte) : option (list byte) :=
  match prefix, bs with
  | [], _ => Some bs
  | x :: prefix', y :: bs' => if Byte.eqb x y then strip prefix' bs' else None
  | _ :: _, [] => None
  end.

Definition ptrs_Decode (bs : list byte) (t : list (option byte))
  : list (option byte) * option error :=
  match bs with
  | [] => (t, Some "EOF")
  | _ =>
      match strip descriptor bs with
      | Some payload => (Some <$> payload, None)
      | None => (t, Some "gob: type mismatch")
      end
  end.

#[export] Instance ptrs_Gob : Gob (list (option byte)) :=
  {| zero_value := []; Encode := ptrs_Encode; Decode := ptrs_Decode |}.

(** ** Vocabulary of the properties *)

(** The world [NewSecret] leaves when the encoder wrote [bs] without an
    error and the enclave opened. *)
Definition constructed (bs : list byte) (w : World) : World :=
  mkWorld (<[fresh (dom (slices w)) := zeros (length bs)]> (slices w))
          (<[fresh (dom (enclaves w)) := bs]> (enclaves w))
          (<[fresh (dom (buffers w)) := mkLockedBuffer true bs]> (buffers w))
          (<[fresh (dom (secrets w)) :=
               mkSecret (Some (fresh (dom (buffers w)))) false]> (secrets w))
          ({[fresh (dom (secrets w))]} ∪ finalizers w)
          None.

(** The backing array of the [bytes.Buffer] a call of [NewSecret] in [w]
    serializes into. *)
Definition intermediate_buffer (w : World) : addr := fresh (dom (slices w)).

(** The bytes [Bytes()] reads from a locked buffer. *)
Definition region (lb : LockedBuffer) : list byte :=
  if alive lb then data lb else [].

(** A locked buffer as the package leaves them: destroyed, or holding a
    message the encoder produced. *)
Definition produced {T} `{Gob T} (lb : LockedBuffer) : Prop :=
  alive lb = true -> exists v : T, Encode v = (data lb, None).

(** [s] is a cell of [w]: a [Secret] struct with a free mutex whose
    [buffer] field points to the locked buffer [lb]. *)
Definition cell (w : World) (s b : addr) (lb : LockedBuffer) : Prop :=
  secrets w !! s = Some (mkSecret (Some b) false) /\ buffers w !! b = Some lb.

(** A call fails loudly when it panics.  ([Expose] returns a [T] and
    nothing else, so it has no error to return.) *)
Definition fails_loudly {A} (o : Outcome A) : Prop :=
  exists msg, o = Panicked msg.

(** The events of a call that takes the mutex of [s] first, releases it
    last and neither takes nor releases it in between. *)
Definition held_throughout (s : addr) (evs : list Event) : Prop :=
  exists mid, evs = EvLock s :: (mid ++ [EvUnlock s])
              /\ (EvLock s ∉ mid) /\ (EvUnlock s ∉ mid).

(** ** Worlds to run the package in *)

(** After [NewSecret("hunter2")] in the empty world: the secret is at
    address 0 and so is its locked buffer. *)
Definition one_secret : World :=
  world (mattress.NewSecret "hunter2" empty_world).

(** The same secret after [zero()]. *)
Definition destroyed_secret : World :=
  world (mattress.zero (Some 0) one_secret).

(** The same secret while a goroutine is inside [Expose] and holds its
    mutex. *)
Definition exposing_secret : World :=
  world (sync.Lock (Some 0) one_secret).

(** ** The earlier revision

    [mattress.go] holds two revisions of the package.  The earlier one has
    no mutex: its [Secret] is the [buffer] field alone, and [NewSecret],
    [zero] and [String] are as above.  Its [Expose] is below, on the same
    [Secret] structs, whose [mutex] it neither reads nor writes. *)

Module mattress_v1.
Section Earlier.

Context {T : Type} `{Gob T}.

(** [func (s *Secret[T]) Expose() T], without the mutex. *)
Definition Expose (s : pointer) : Go T :=
  let data := zero_value in
  sec <- load s ;;
  region <- memguard.Bytes (buffer sec) ;;
  let '(data, _) := Decode region data in
  ret data.

End Earlier.
End mattress_v1.

(** ** Sequences of calls *)

(** A call into the package, by a caller or by the collector. *)
Inductive Call (T : Type) :=
| CallNewSecret (data : T)
| CallExpose (s : pointer)
| CallString (s : pointer)
| CallZero (s : pointer)
| CallFinalizer (s : addr).
Arguments CallNewSecret {T} data.
Arguments CallExpose {T} s.
Arguments CallString {T} s.
Arguments CallZero {T} s.
Arguments CallFinalizer {T} s.

(** The world a call leaves. *)
Definition call {T} `{Gob T} (c : Call T) (w : World) : World :=
  match c with
  | CallNewSecret data => world (mattress.NewSecret data w)
  | CallExpose s => world (mattress.Expose (T := T) s w)
  | CallString s => world (mattress.String s w)
  | CallZero s => world (mattress.zero s w)
  | CallFinalizer s => world (mattress.run_finalizer s w)
  end.

(** The world after a sequence of calls, one after the other. *)
Definition after {T} `{Gob T} (cs : list (Call T)) (w : World) : World :=
  foldl (fun w c => call c w) w cs.

(** A locked buffer is kept when it is destroyed and empty, or alive and
    holding a message the encoder produced. *)
Definition kept {T} `{Gob T} (lb : LockedBuffer) : Prop :=
  if alive lb then exists v : T, Encode v = (data lb, None) else data lb = [].

(** The state the package keeps its secrets in: every [Secret] has a free
    mutex and a locked buffer of its own, which is kept, and finalizers
    are set on secrets only. *)
Definition well_formed {T} `{Gob T} (w : World) : Prop :=
  (forall s sec, secrets w !! s = Some sec ->
     mutex sec = false
     /\ exists b lb, buffer sec = Some b /\ buffers w !! b = Some lb
                     /\ kept (T := T) lb)
  /\ (forall s1 s2 sec1 sec2,
        secrets w !! s1 = Some sec1 -> secrets w !! s2 = Some sec2 ->
        buffer sec1 = buffer sec2 -> s1 = s2)
  /\ (forall s, s ∈ finalizers w -> is_Some (secrets w !! s)).

(** A buffer pointer with no locked buffer behind it: nil, or an address
    the store has no buffer at. *)
Definition dangling (w : World) (bp : pointer) : Prop :=
  match bp with
  | None => True
  | Some b => buffers w !! b = None
  end.


(** A world with no secrets yet, where opening an enclave meets [oe]. *)
Definition start (oe : option error) : World := mkWorld ∅ ∅ ∅ ∅ ∅ oe.

(** A world where opening an enclave fails with [err]. *)
Definition failing_world (err : error) : World := mkWorld ∅ ∅ ∅ ∅ ∅ (Some err).

(** Two secrets, made one after the other. *)
Definition two_secrets : World :=
  world (mattress.NewSecret "swordfish" one_secret).

(** A [Secret] struct that [NewSecret] did not make: [&Secret[string]{}],
    with a nil buffer. *)
Definition blank_secret : World :=
  set_secrets <[7 := mkSecret None false]> empty_world.

(** * Properties *)

(** ** Running a call step by step *)

Ltac simplify_world :=
  unfold set_slices, set_enclaves, set_buffers, set_secrets, set_finalizers in *;
  cbn [slices enclaves buffers secrets finalizers open_err] in *.

Lemma bind_eq {A B} (m : Go A) (k : A -> Go B) w a w' ev :
  m w = mkRun (Returned a) w' ev ->
  bind m k w = mkRun (out (k a w')) (world (k a w')) (ev ++ events (k a w')).
Proof. intros Hm. unfold bind. by rewrite Hm. Qed.

Lemma bind_panicked {A B} (m : Go A) (k : A -> Go B) w msg w' ev :
  m w = mkRun (Panicked msg) w' ev ->
  bind m k w = mkRun (Panicked msg) w' ev.
Proof. intros Hm. unfold bind. by rewrite Hm. Qed.

Lemma bind_blocked {A B} (m : Go A) (k : A -> Go B) w w' ev :
  m w = mkRun Blocked w' ev ->
  bind m k w = mkRun Blocked w' ev.
Proof. intros Hm. unfold bind. by rewrite Hm. Qed.

Lemma alter_lookup {A} (f : A -> A) (m : gmap addr A) (a : addr) (x : A) :
  m !! a = Some x -> alter f a m = <[a := f x]> m.
Proof.
  intros Hx. apply map_eq. intros i.
  destruct (decide (a = i)) as [->|Hne].
  - by rewrite lookup_alter_eq, lookup_insert_eq, Hx.
  - by rewrite lookup_alter_ne, lookup_insert_ne.
Qed.

Lemma zeros_length (bs : list byte) : zeros (length (zeros (length bs))) = zeros (length bs).
Proof. unfold zeros. by rewrite length_replicate. Qed.

Lemma wiped_zeros (n : nat) : wiped (zeros n) = true.
Proof. induction n as [|n IH]; [done | exact IH]. Qed.

(** ** The collaborators *)

Lemma NewBuffer_run w :
  bytes.NewBuffer w =
  mkRun (Returned (fresh (dom (slices w))))
        (set_slices <[fresh (dom (slices w)) := []]> w) [].
Proof. reflexivity. Qed.

Lemma EncodeTo_run {T} `{Gob T} (v : T) buf old written err w :
  Encode v = (written, err) ->
  slices w !! buf = Some old ->
  gob.EncodeTo buf v w =
  mkRun (Returned err) (set_slices <[buf := old ++ written]> w) [].
Proof.
  intros Henc Hold. unfold gob.EncodeTo. rewrite Henc.
  unfold bytes.Write, bind, modify, ret; cbn [out world events app].
  unfold set_slices. by rewrite (alter_lookup _ _ _ _ Hold).
Qed.

Lemma WipeBytes_run a old w :
  slices w !! a = Some old ->
  memguard.WipeBytes a w =
  mkRun (Returned tt) (set_slices <[a := zeros (length old)]> w) [].
Proof.
  intros Hold. unfold memguard.WipeBytes, modify, set_slices.
  by rewrite (alter_lookup _ _ _ _ Hold).
Qed.

Lemma NewEnclave_run src plaintext w :
  slices w !! src = Some plaintext -> plaintext <> [] ->
  memguard.NewEnclave src w =
  mkRun (Returned (Some (fresh (dom (enclaves w)))))
        (set_slices <[src := zeros (length plaintext)]>
           (set_enclaves <[fresh (dom (enclaves w)) := plaintext]> w)) [].
Proof.
  intros Hsrc Hne. unfold memguard.NewEnclave.
  rewrite (bind_eq _ _ w w w []) by reflexivity.
  unfold bytes.contents. rewrite Hsrc.
  destruct plaintext as [|b0 rest]; [done|].
  cbv beta iota zeta.
  erewrite bind_eq by reflexivity.
  erewrite bind_eq by (by apply WipeBytes_run).
  reflexivity.
Qed.

Lemma NewEnclave_empty src w :
  slices w !! src = Some [] ->
  memguard.NewEnclave src w = mkRun (Returned None) w [].
Proof.
  intros Hsrc. unfold memguard.NewEnclave.
  rewrite (bind_eq _ _ w w w []) by reflexivity.
  unfold bytes.contents. by rewrite Hsrc.
Qed.

Lemma Open_run e plaintext w :
  enclaves w !! e = Some plaintext -> open_err w = None ->
  memguard.Open (Some e) w =
  mkRun (Returned (Some (fresh (dom (buffers w))), None))
        (set_buffers <[fresh (dom (buffers w)) := mkLockedBuffer true plaintext]> w)
        [EvOpen (fresh (dom (buffers w)))].
Proof.
  intros He Herr. unfold memguard.Open.
  rewrite (bind_eq _ _ w w w []) by reflexivity.
  rewrite He, Herr. reflexivity.
Qed.

Lemma Open_fails e plaintext err w :
  enclaves w !! e = Some plaintext -> open_err w = Some err ->
  memguard.Open (Some e) w = mkRun (Returned (None, Some err)) w [].
Proof.
  intros He Herr. unfold memguard.Open.
  rewrite (bind_eq _ _ w w w []) by reflexivity.
  rewrite He, Herr. reflexivity.
Qed.

Lemma Bytes_run b lb w :
  buffers w !! b = Some lb ->
  memguard.Bytes (Some b) w =
  mkRun (Returned (if alive lb then data lb else [])) w [EvBytes b].
Proof.
  intros Hb. unfold memguard.Bytes.
  rewrite (bind_eq _ _ w w w []) by reflexivity.
  rewrite Hb. reflexivity.
Qed.

Lemma Destroy_run b lb w :
  buffers w !! b = Some lb ->
  memguard.Destroy (Some b) w =
  mkRun (Returned tt)
        (if alive lb then set_buffers <[b := mkLockedBuffer false []]> w else w)
        [EvDestroy b].
Proof.
  intros Hb. unfold memguard.Destroy.
  rewrite (bind_eq _ _ w w w []) by reflexivity.
  rewrite Hb. by destruct (alive lb).
Qed.

Lemma load_run s sec w :
  secrets w !! s = Some sec ->
  load (Some s) w = mkRun (Returned sec) w [].
Proof.
  intros Hs. unfold load.
  rewrite (bind_eq _ _ w w w []) by reflexivity.
  by rewrite Hs.
Qed.

Lemma Lock_run s b w :
  secrets w !! s = Some (mkSecret b false) ->
  sync.Lock (Some s) w =
  mkRun (Returned tt) (set_secrets <[s := mkSecret b true]> w) [EvLock s].
Proof.
  intros Hs. unfold sync.Lock.
  by rewrite (bind_eq _ _ _ _ _ _ (load_run _ _ _ Hs)).
Qed.

Lemma Lock_blocks s b w :
  secrets w !! s = Some (mkSecret b true) ->
  sync.Lock (Some s) w = mkRun Blocked w [].
Proof.
  intros Hs. unfold sync.Lock.
  by rewrite (bind_eq _ _ _ _ _ _ (load_run _ _ _ Hs)).
Qed.

Lemma Unlock_run s b w :
  secrets w !! s = Some (mkSecret b true) ->
  sync.Unlock (Some s) w =
  mkRun (Returned tt) (set_secrets <[s := mkSecret b false]> w) [EvUnlock s].
Proof.
  intros Hs. unfold sync.Unlock.
  by rewrite (bind_eq _ _ _ _ _ _ (load_run _ _ _ Hs)).
Qed.

Lemma new_Secret_run b w :
  new_Secret b w =
  mkRun (Returned (fresh (dom (secrets w))))
        (set_secrets <[fresh (dom (secrets w)) := mkSecret b false]> w) [].
Proof. reflexivity. Qed.

Lemma SetFinalizer_run s w :
  runtime.SetFinalizer s w =
  mkRun (Returned tt) (set_finalizers (fun fs => {[s]} ∪ fs) w) [].
Proof. reflexivity. Qed.

(** ** Construction *)

Section Construction.

Context {T : Type} `{Gob T}.

Lemma NewSecret_success (v : T) (w : World) (bs : list byte) :
  Encode v = (bs, None) -> bs <> [] -> open_err w = None ->
  mattress.NewSecret v w =
  mkRun (Returned (Some (fresh (dom (secrets w))), None))
        (constructed bs w)
        [EvOpen (fresh (dom (buffers w)))].
Proof.
  intros Henc Hne Hopen. unfold mattress.NewSecret.
  erewrite bind_eq by apply NewBuffer_run.
  erewrite bind_eq
    by (eapply EncodeTo_run; [exact Henc | apply lookup_insert_eq]).
  cbv beta iota. cbn [app].
  erewrite bind_eq
    by (eapply NewEnclave_run; [apply lookup_insert_eq | exact Hne]).
  erewrite bind_eq
    by (eapply Open_run; [apply lookup_insert_eq | exact Hopen]).
  cbv beta iota.
  erewrite bind_eq
    by (eapply WipeBytes_run; apply lookup_insert_eq).
  erewrite bind_eq by apply new_Secret_run.
  erewrite bind_eq by apply SetFinalizer_run.
  cbn [out world events app ret].
  destruct w as [sl en bu se fi oe]. unfold constructed. simplify_world.
  cbn [open_err] in Hopen. subst oe.
  by rewrite !insert_insert_eq, zeros_length.
Qed.

(** The locked buffer of a new secret holds the message of its value. *)
Lemma constructed_cell (v : T) (bs : list byte) (w : World) :
  Encode v = (bs, None) ->
  cell (constructed bs w) (fresh (dom (secrets w))) (fresh (dom (buffers w)))
       (mkLockedBuffer true bs)
  /\ produced (T := T) (mkLockedBuffer true bs).
Proof.
  intros Henc. split.
  - split; apply lookup_insert_eq.
  - intros _. by exists v.
Qed.

End Construction.

Section Paths.

Context {T : Type} `{Gob T}.

Lemma NewSecret_encode_fails (v : T) (w : World) (bs : list byte) (e : error) :
  Encode v = (bs, Some e) ->
  mattress.NewSecret v w =
  mkRun (Returned (None, Some e))
        (set_slices <[fresh (dom (slices w)) := bs]> w) [].
Proof.
  intros Henc. unfold mattress.NewSecret.
  erewrite bind_eq by apply NewBuffer_run.
  erewrite bind_eq
    by (eapply EncodeTo_run; [exact Henc | apply lookup_insert_eq]).
  cbv beta iota. cbn [out world events app ret].
  destruct w as [sl en bu se fi oe]. simplify_world.
  by rewrite !insert_insert_eq.
Qed.

Lemma NewSecret_open_fails (v : T) (w : World) (bs : list byte) (e : error) :
  Encode v = (bs, None) -> bs <> [] -> open_err w = Some e ->
  mattress.NewSecret v w =
  mkRun (Returned (None, Some e))
        (set_slices <[fresh (dom (slices w)) := zeros (length bs)]>
           (set_enclaves <[fresh (dom (enclaves w)) := bs]> w)) [].
Proof.
  intros Henc Hne Hopen. unfold mattress.NewSecret.
  erewrite bind_eq by apply NewBuffer_run.
  erewrite bind_eq
    by (eapply EncodeTo_run; [exact Henc | apply lookup_insert_eq]).
  cbv beta iota. cbn [app].
  erewrite bind_eq
    by (eapply NewEnclave_run; [apply lookup_insert_eq | exact Hne]).
  erewrite bind_eq
    by (eapply Open_fails; [apply lookup_insert_eq | exact Hopen]).
  cbv beta iota. cbn [out world events app ret].
  destruct w as [sl en bu se fi oe]. simplify_world.
  by rewrite !insert_insert_eq.
Qed.

(** An encoder that succeeds without writing anything leaves a nil
    enclave, and opening it dereferences nil. *)
Lemma NewSecret_empty_panics (v : T) (w : World) :
  Encode v = ([], None) ->
  out (mattress.NewSecret v w) = Panicked nil_dereference.
Proof.
  intros Henc. unfold mattress.NewSecret.
  erewrite bind_eq by apply NewBuffer_run.
  erewrite bind_eq
    by (eapply EncodeTo_run; [exact Henc | apply lookup_insert_eq]).
  cbv beta iota. cbn [app].
  erewrite bind_eq by (eapply NewEnclave_empty; apply lookup_insert_eq).
  reflexivity.
Qed.

Lemma zero_run s sec b lb w :
  secrets w !! s = Some sec -> buffer sec = Some b ->
  buffers w !! b = Some lb ->
  mattress.zero (Some s) w =
  mkRun (Returned tt)
        (if alive lb then set_buffers <[b := mkLockedBuffer false []]> w else w)
        [EvDestroy b].
Proof.
  intros Hs Hb Hlb. unfold mattress.zero.
  erewrite bind_eq by (by apply load_run).
  rewrite Hb. erewrite Destroy_run by exact Hlb.
  reflexivity.
Qed.

Lemma Expose_run s b lb w :
  secrets w !! s = Some (mkSecret (Some b) false) ->
  buffers w !! b = Some lb ->
  mattress.Expose (Some s) w =
  mkRun (Returned (fst (Decode (region lb) zero_value)))
        w [EvLock s; EvBytes b; EvUnlock s].
Proof.
  intros Hs Hlb. unfold mattress.Expose, region.
  erewrite bind_eq by (by eapply Lock_run).
  unfold defer.
  erewrite bind_eq by (apply load_run; apply lookup_insert_eq).
  cbn [buffer].
  erewrite bind_eq by (by apply Bytes_run).
  destruct (Decode _ zero_value) as [d err] eqn:Hdec.
  cbn [out world events app ret fst].
  erewrite Unlock_run by apply lookup_insert_eq.
  cbn [out world events app].
  destruct w as [sl en bu se fi oe]. simplify_world.
  by rewrite insert_insert_eq, insert_id.
Qed.

Lemma Expose_blocks s b w :
  secrets w !! s = Some (mkSecret b true) ->
  mattress.Expose (Some s) w = mkRun Blocked w [].
Proof.
  intros Hs. unfold mattress.Expose.
  by erewrite bind_blocked by (by eapply Lock_blocks).
Qed.

End Paths.

(** ** The string serializer obeys the laws *)

#[export] Instance string_GobLaws : GobLaws string.
Proof.
  split.
  - intros v bs [= <-]. discriminate.
  - intros v bs [= <-]. cbn.
    by rewrite String.string_of_list_byte_of_string.
  - reflexivity.
Qed.

(** ** Round trip *)

Section RoundTrip.

Context {T : Type} `{GobLaws T}.


End RoundTrip.


(** ** Exposure after destruction *)

Section Destroyed.

Context {T : Type} `{GobLaws T}.

Lemma zero_destroys s b lb w :
  cell w s b lb ->
  cell (world (mattress.zero (Some s) w)) s b
       (if alive lb then mkLockedBuffer false [] else lb).
Proof.
  intros [Hs Hlb].
  erewrite zero_run by (try exact Hs; try exact Hlb; reflexivity).
  cbn [world]. destruct (alive lb); split; try assumption.
  apply lookup_insert_eq.
Qed.

(** C2, as the code has it: [Expose] on a cell that [zero] destroyed
    does not fail; it returns the zero value of [T]. *)
Theorem Expose_after_zero (s b : addr) (lb : LockedBuffer) (w : World) :
  cell w s b lb ->
  out (mattress.Expose (T := T) (Some s) (world (mattress.zero (Some s) w)))
  = Returned zero_value.
Proof.
  intros Hcell. destruct (zero_destroys s b lb w Hcell) as [Hs Hlb].
  erewrite Expose_run by eassumption.
  cbn [out]. unfold region.
  destruct (alive lb) eqn:Halive; cbn [alive]; [|rewrite Halive];
    by rewrite Decode_EOF.
Qed.

End Destroyed.

Lemma Expose_after_zero_witness :
  cell one_secret 0 0
       (mkLockedBuffer true (x0c :: x00 :: String.list_byte_of_string "hunter2"))
  /\ out (mattress.Expose (T := string) (Some 0)
            (world (mattress.zero (Some 0) one_secret)))
     = Returned "".
Proof.
  split; [split; reflexivity|].
  change (Returned "") with (Returned (zero_value (T := string))).
  apply (Expose_after_zero (T := string) 0 0
           (mkLockedBuffer true (x0c :: x00 :: String.list_byte_of_string "hunter2"))
           one_secret).
  split; reflexivity.
Defined.

(** C2, as the claim has it, fails: on the destroyed secret [Expose]
    returns the empty string and does not panic. *)
Lemma Expose_after_zero_is_silent :
  out (mattress.Expose (T := string) (Some 0) destroyed_secret) = Returned ""
  /\ ~ fails_loudly (out (mattress.Expose (T := string) (Some 0) destroyed_secret)).
Proof.
  assert (out (mattress.Expose (T := string) (Some 0) destroyed_secret)
          = Returned "") as Hout by (vm_compute; reflexivity).
  split; [exact Hout|].
  intros [msg Hmsg]. rewrite Hout in Hmsg. discriminate.
Qed.

(** ** The intermediate buffer *)

Section Intermediate.

Context {T : Type} `{Gob T}.

Lemma contents_insert a bs w :
  bytes.contents a (set_slices <[a := bs]> w) = bs.
Proof.
  unfold bytes.contents, set_slices. cbn [slices].
  by rewrite lookup_insert_eq.
Qed.

(** When [NewSecret] returns a secret its intermediate buffer is wiped. *)
Lemma NewSecret_wipes_on_success (v : T) (bs : list byte) (w : World) :
  Encode v = (bs, None) -> bs <> [] -> open_err w = None ->
  wiped (bytes.contents (intermediate_buffer w)
           (world (mattress.NewSecret v w))) = true.
Proof.
  intros Henc Hne Hopen.
  rewrite (NewSecret_success v w bs Henc Hne Hopen).
  unfold bytes.contents, constructed, intermediate_buffer. cbn [world slices].
  rewrite lookup_insert_eq. apply wiped_zeros.
Qed.

(** When the enclave does not open, the buffer was wiped already, by
    [memguard.NewEnclave]. *)
Lemma NewSecret_wipes_on_open_failure (v : T) (bs : list byte) (e : error) (w : World) :
  Encode v = (bs, None) -> bs <> [] -> open_err w = Some e ->
  wiped (bytes.contents (intermediate_buffer w)
           (world (mattress.NewSecret v w))) = true.
Proof.
  intros Henc Hne Hopen.
  rewrite (NewSecret_open_fails v w bs e Henc Hne Hopen).
  cbn [world]. unfold intermediate_buffer.
  rewrite contents_insert. apply wiped_zeros.
Qed.

(** When the encoder fails, what it had written stays in the buffer. *)
Lemma NewSecret_keeps_on_encode_failure (v : T) (bs : list byte) (e : error) (w : World) :
  Encode v = (bs, Some e) ->
  bytes.contents (intermediate_buffer w) (world (mattress.NewSecret v w)) = bs.
Proof.
  intros Henc. rewrite (NewSecret_encode_fails v w bs e Henc).
  cbn [world]. apply contents_insert.
Qed.

(** C4: when the encoding fails, [NewSecret] returns a nil secret with
    the encoder's error, and no enclave, locked buffer, [Secret] struct
    or finalizer is created. *)
Theorem NewSecret_encode_error_allocates_nothing
    (v : T) (bs : list byte) (e : error) (w : World) :
  Encode v = (bs, Some e) ->
  out (mattress.NewSecret v w) = Returned (None, Some e)
  /\ enclaves (world (mattress.NewSecret v w)) = enclaves w
  /\ buffers (world (mattress.NewSecret v w)) = buffers w
  /\ secrets (world (mattress.NewSecret v w)) = secrets w
  /\ finalizers (world (mattress.NewSecret v w)) = finalizers w
  /\ events (mattress.NewSecret v w) = [].
Proof.
  intros Henc. rewrite (NewSecret_encode_fails v w bs e Henc).
  by repeat split.
Qed.

End Intermediate.

Lemma NewSecret_encode_error_allocates_nothing_witness :
  Encode [Some x01; None] = (descriptor, Some "gob: encodeArray: nil element")
  /\ out (mattress.NewSecret [Some x01; None] one_secret)
     = Returned (None, Some "gob: encodeArray: nil element")
  /\ enclaves (world (mattress.NewSecret [Some x01; None] one_secret))
     = enclaves one_secret
  /\ buffers (world (mattress.NewSecret [Some x01; None] one_secret))
     = buffers one_secret
  /\ secrets (world (mattress.NewSecret [Some x01; None] one_secret))
     = secrets one_secret
  /\ finalizers (world (mattress.NewSecret [Some x01; None] one_secret))
     = finalizers one_secret
  /\ events (mattress.NewSecret [Some x01; None] one_secret) = [].
Proof.
  split; [reflexivity|].
  apply (NewSecret_encode_error_allocates_nothing
           (T := list (option byte)) [Some x01; None] descriptor
           "gob: encodeArray: nil element" one_secret).
  reflexivity.
Defined.

(** C3 fails on the path of a failed encoding: [NewSecret] on a slice with
    a nil element returns the encoder's error and leaves in the
    intermediate buffer the bytes the encoder had written. *)
Theorem NewSecret_leaves_buffer_on_encode_failure :
  out (mattress.NewSecret [Some x01; None] empty_world)
  = Returned (None, Some "gob: encodeArray: nil element")
  /\ bytes.contents (intermediate_buffer empty_world)
       (world (mattress.NewSecret [Some x01; None] empty_world))
     = descriptor
  /\ wiped (bytes.contents (intermediate_buffer empty_world)
              (world (mattress.NewSecret [Some x01; None] empty_world)))
     = false.
Proof. repeat split; vm_compute; reflexivity. Qed.

(** ** Redaction *)

Section Redaction.

Context {T : Type} `{Gob T}.

(** C5: on every secret [NewSecret] returns, whatever the value it was
    made from, [String] returns the token "[SECRET]". *)
Theorem String_of_NewSecret (v : T) (w : World) (s : addr) :
  out (mattress.NewSecret v w) = Returned (Some s, None) ->
  out (mattress.String (Some s) (world (mattress.NewSecret v w)))
  = Returned "[SECRET]".
Proof. intros _. reflexivity. Qed.

End Redaction.

Lemma String_of_NewSecret_witness :
  out (mattress.NewSecret "hunter2" empty_world) = Returned (Some 0, None)
  /\ out (mattress.String (Some 0) (world (mattress.NewSecret "hunter2" empty_world)))
     = Returned "[SECRET]".
Proof.
  split; [reflexivity|].
  apply (String_of_NewSecret (T := string) "hunter2" empty_world 0).
  reflexivity.
Defined.

(** C10: [String] is constant: on any two receivers (nil ones too) in any
    two worlds it returns the same string, and a call neither changes the
    world nor touches a mutex or a locked buffer. *)
Theorem String_is_constant (s1 s2 : pointer) (w1 w2 : World) :
  out (mattress.String s1 w1) = out (mattress.String s2 w2)
  /\ out (mattress.String s1 w1) = Returned "[SECRET]"
  /\ world (mattress.String s1 w1) = w1
  /\ events (mattress.String s1 w1) = [].
Proof. by repeat split. Qed.

(** On the destroyed secret [String] still returns the token. *)
Lemma String_of_destroyed :
  mattress.String (Some 0) destroyed_secret
  = mkRun (Returned "[SECRET]") destroyed_secret [].
Proof. reflexivity. Qed.

(** The finalizer of a secret destroys its locked buffer, once. *)
Lemma finalizer_destroys :
  buffers (world (mattress.run_finalizer 0 one_secret)) !! 0
  = Some (mkLockedBuffer false [])
  /\ events (mattress.run_finalizer 0 one_secret) = [EvDestroy 0]
  /\ events (mattress.run_finalizer 0 (world (mattress.run_finalizer 0 one_secret)))
     = [].
Proof. repeat split; vm_compute; reflexivity. Qed.

(** ** The mutex *)

Section Mutex.

Context {T : Type} `{Gob T}.

Lemma held_throughout_Expose s b :
  held_throughout s [EvLock s; EvBytes b; EvUnlock s].
Proof.
  exists [EvBytes b]. split; [reflexivity|].
  split; intros Hin; apply list_elem_of_singleton in Hin; discriminate.
Qed.

Lemma not_held_throughout_zero s b : ~ held_throughout s [EvDestroy b].
Proof. intros (mid & Heq & _). discriminate. Qed.

(** C6, as the code has it: [Expose] takes the mutex before it reads the
    buffer and releases it last, and waits when the mutex is held; [zero]
    takes no mutex: held or free, it destroys the buffer and returns. *)
Theorem Expose_locks_zero_does_not
    (s b : addr) (m : bool) (lb : LockedBuffer) (w : World) :
  secrets w !! s = Some (mkSecret (Some b) m) ->
  buffers w !! b = Some lb ->
  (if m
   then mattress.Expose (T := T) (Some s) w = mkRun Blocked w []
   else events (mattress.Expose (T := T) (Some s) w)
        = [EvLock s; EvBytes b; EvUnlock s]
        /\ held_throughout s (events (mattress.Expose (T := T) (Some s) w))
        /\ world (mattress.Expose (T := T) (Some s) w) = w)
  /\ out (mattress.zero (Some s) w) = Returned tt
  /\ events (mattress.zero (Some s) w) = [EvDestroy b]
  /\ ~ held_throughout s (events (mattress.zero (Some s) w)).
Proof.
  intros Hs Hlb. split.
  - destruct m.
    + by eapply Expose_blocks.
    + rewrite (Expose_run s b lb w Hs Hlb). cbn [events world].
      repeat split. apply held_throughout_Expose.
  - rewrite (zero_run s _ b lb w Hs eq_refl Hlb). cbn [out events].
    repeat split. apply not_held_throughout_zero.
Qed.

End Mutex.

Lemma Expose_locks_zero_does_not_witness :
  secrets one_secret !! 0 = Some (mkSecret (Some 0) false)
  /\ buffers one_secret !! 0
     = Some (mkLockedBuffer true (x0c :: x00 :: String.list_byte_of_string "hunter2"))
  /\ (events (mattress.Expose (T := string) (Some 0) one_secret)
      = [EvLock 0; EvBytes 0; EvUnlock 0]
      /\ held_throughout 0 (events (mattress.Expose (T := string) (Some 0) one_secret))
      /\ world (mattress.Expose (T := string) (Some 0) one_secret) = one_secret)
  /\ out (mattress.zero (Some 0) one_secret) = Returned tt
  /\ events (mattress.zero (Some 0) one_secret) = [EvDestroy 0]
  /\ ~ held_throughout 0 (events (mattress.zero (Some 0) one_secret)).
Proof.
  split; [reflexivity|]. split; [reflexivity|].
  apply (Expose_locks_zero_does_not (T := string) 0 0 false
           (mkLockedBuffer true (x0c :: x00 :: String.list_byte_of_string "hunter2"))
           one_secret); reflexivity.
Defined.

(** C6, as the claim has it, fails for [zero]: its call takes no mutex,
    and while a goroutine inside [Expose] holds the mutex of the secret,
    [zero] returns all the same with the buffer destroyed. *)
Lemma zero_ignores_the_mutex :
  ~ held_throughout 0 (events (mattress.zero (Some 0) one_secret))
  /\ secrets exposing_secret !! 0 = Some (mkSecret (Some 0) true)
  /\ out (mattress.zero (Some 0) exposing_secret) = Returned tt
  /\ buffers (world (mattress.zero (Some 0) exposing_secret)) !! 0
     = Some (mkLockedBuffer false []).
Proof.
  split.
  - change (events (mattress.zero (Some 0) one_secret)) with [EvDestroy 0].
    intros (mid & Heq & _). discriminate.
  - repeat split; vm_compute; reflexivity.
Qed.

(** ** Exposure leaves the cell as it was *)

Section Frame.

Context {T : Type} `{Gob T}.

(** C7: [Expose] on a cell returns and leaves the world as it found it,
    the locked buffer in particular, and a second [Expose] returns what
    the first one did. *)
Theorem Expose_preserves_cell (s b : addr) (lb : LockedBuffer) (w : World) :
  cell w s b lb ->
  world (mattress.Expose (T := T) (Some s) w) = w
  /\ cell (world (mattress.Expose (T := T) (Some s) w)) s b lb
  /\ (exists v, out (mattress.Expose (T := T) (Some s) w) = Returned v)
  /\ out (mattress.Expose (T := T) (Some s)
            (world (mattress.Expose (T := T) (Some s) w)))
     = out (mattress.Expose (T := T) (Some s) w).
Proof.
  intros [Hs Hlb]. rewrite (Expose_run s b lb w Hs Hlb). cbn [world out].
  repeat split; try assumption.
  - by eexists.
  - by rewrite (Expose_run s b lb w Hs Hlb).
Qed.

(** C8: a second [zero] on a cell returns as the first one does and is a
    no-operation: it leaves the world of the first one unchanged. *)
Theorem zero_twice (s b : addr) (sec : Secret) (lb : LockedBuffer) (w : World) :
  secrets w !! s = Some sec -> buffer sec = Some b ->
  buffers w !! b = Some lb ->
  out (mattress.zero (Some s) w) = Returned tt
  /\ mattress.zero (Some s) (world (mattress.zero (Some s) w))
     = mkRun (Returned tt) (world (mattress.zero (Some s) w)) [EvDestroy b].
Proof.
  intros Hs Hb Hlb. rewrite (zero_run s sec b lb w Hs Hb Hlb). cbn [out world].
  split; [reflexivity|].
  destruct (alive lb) eqn:Halive.
  - by rewrite (zero_run s sec b (mkLockedBuffer false [])
                  (set_buffers <[b := mkLockedBuffer false []]> w) Hs Hb
                  (lookup_insert_eq _ _ _)).
  - rewrite (zero_run s sec b lb w Hs Hb Hlb). by rewrite Halive.
Qed.

End Frame.

Lemma Expose_preserves_cell_witness :
  cell one_secret 0 0
       (mkLockedBuffer true (x0c :: x00 :: String.list_byte_of_string "hunter2"))
  /\ world (mattress.Expose (T := string) (Some 0) one_secret) = one_secret
  /\ cell (world (mattress.Expose (T := string) (Some 0) one_secret)) 0 0
       (mkLockedBuffer true (x0c :: x00 :: String.list_byte_of_string "hunter2"))
  /\ (exists v, out (mattress.Expose (T := string) (Some 0) one_secret) = Returned v)
  /\ out (mattress.Expose (T := string) (Some 0)
            (world (mattress.Expose (T := string) (Some 0) one_secret)))
     = out (mattress.Expose (T := string) (Some 0) one_secret).
Proof.
  split; [split; reflexivity|].
  apply (Expose_preserves_cell (T := string) 0 0
           (mkLockedBuffer true (x0c :: x00 :: String.list_byte_of_string "hunter2"))
           one_secret).
  split; reflexivity.
Defined.

Lemma zero_twice_witness :
  secrets one_secret !! 0 = Some (mkSecret (Some 0) false)
  /\ buffers one_secret !! 0
     = Some (mkLockedBuffer true (x0c :: x00 :: String.list_byte_of_string "hunter2"))
  /\ out (mattress.zero (Some 0) one_secret) = Returned tt
  /\ mattress.zero (Some 0) (world (mattress.zero (Some 0) one_secret))
     = mkRun (Returned tt) (world (mattress.zero (Some 0) one_secret)) [EvDestroy 0].
Proof.
  split; [reflexivity|]. split; [reflexivity|].
  apply (zero_twice 0 0 (mkSecret (Some 0) false)
           (mkLockedBuffer true (x0c :: x00 :: String.list_byte_of_string "hunter2"))
           one_secret); reflexivity.
Defined.

(** ** Decoding errors *)

Section DecodeError.

Context {T : Type} `{GobLaws T}.


End DecodeError.


(** ** What construction allocates *)

Lemma fresh_lookup {A} (m : gmap addr A) : m !! fresh (dom m) = None.
Proof. apply not_elem_of_dom, is_fresh. Qed.

Lemma lookup_fresh_ne {A} (m : gmap addr A) (a : addr) (x : A) :
  m !! a = Some x -> fresh (dom m) <> a.
Proof. intros Hx Heq. rewrite <- Heq, fresh_lookup in Hx. discriminate. Qed.

Section Allocation.

Context {T : Type} `{Gob T}.

Lemma NewSecret_empty_run (v : T) (w : World) :
  Encode v = ([], None) ->
  mattress.NewSecret v w =
  mkRun (Panicked nil_dereference)
        (set_slices <[fresh (dom (slices w)) := []]> w) [].
Proof.
  intros Henc. unfold mattress.NewSecret.
  erewrite bind_eq by apply NewBuffer_run.
  erewrite bind_eq
    by (eapply EncodeTo_run; [exact Henc | apply lookup_insert_eq]).
  cbv beta iota. cbn [app].
  erewrite bind_eq by (eapply NewEnclave_empty; apply lookup_insert_eq).
  cbn [out world events app memguard.Open panic].
  destruct w as [sl en bu se fi oe]. simplify_world.
  by rewrite !insert_insert_eq.
Qed.

(** Whatever way [NewSecret] ends, it leaves the locked buffers and the
    secrets there were and adds at most one of each. *)
Lemma NewSecret_grows (v : T) (w : World) :
  buffers w ⊆ buffers (world (mattress.NewSecret v w))
  /\ secrets w ⊆ secrets (world (mattress.NewSecret v w)).
Proof.
  destruct (Encode v) as [bs [e|]] eqn:Henc.
  { by rewrite (NewSecret_encode_fails v w bs e Henc). }
  destruct bs as [|b0 bs'].
  { by rewrite (NewSecret_empty_run v w Henc). }
  destruct (open_err w) as [e|] eqn:Hopen.
  { by erewrite NewSecret_open_fails by (try exact Henc; try exact Hopen; done). }
  erewrite NewSecret_success by (try exact Henc; try exact Hopen; done).
  cbn [world constructed buffers secrets].
  split; apply insert_subseteq, fresh_lookup.
Qed.

(** X3: A secret made earlier is not disturbed by a later [NewSecret],
    whatever its value and however it ends: the earlier cell is as it
    was and [Expose] on it returns what it returned before. *)
Theorem NewSecret_preserves_cells
    (v : T) (s b : addr) (lb : LockedBuffer) (w : World) :
  cell w s b lb ->
  cell (world (mattress.NewSecret v w)) s b lb
  /\ out (mattress.Expose (T := T) (Some s) (world (mattress.NewSecret v w)))
     = out (mattress.Expose (T := T) (Some s) w).
Proof.
  intros [Hs Hlb]. destruct (NewSecret_grows v w) as [Hbu Hse].
  pose proof (lookup_weaken _ _ _ _ Hs Hse) as Hs'.
  pose proof (lookup_weaken _ _ _ _ Hlb Hbu) as Hlb'.
  split; [by split|].
  by rewrite (Expose_run s b lb _ Hs' Hlb'), (Expose_run s b lb w Hs Hlb).
Qed.

End Allocation.

Lemma NewSecret_preserves_cells_witness :
  cell one_secret 0 0
       (mkLockedBuffer true (x0c :: x00 :: String.list_byte_of_string "hunter2"))
  /\ cell (world (mattress.NewSecret "swordfish" one_secret)) 0 0
       (mkLockedBuffer true (x0c :: x00 :: String.list_byte_of_string "hunter2"))
  /\ out (mattress.Expose (T := string) (Some 0)
            (world (mattress.NewSecret "swordfish" one_secret)))
     = out (mattress.Expose (T := string) (Some 0) one_secret).
Proof.
  split; [split; reflexivity|].
  apply (NewSecret_preserves_cells (T := string) "swordfish" 0 0
           (mkLockedBuffer true (x0c :: x00 :: String.list_byte_of_string "hunter2"))
           one_secret).
  split; reflexivity.
Defined.

Section AllocationLaws.

Context {T : Type} `{GobLaws T}.

(** X1: When the encoding succeeds and the enclave opens, [NewSecret] returns
    a secret that was not there before, with a locked buffer that was not
    there before and holds the encoder's message, a free mutex and a
    finalizer; the intermediate buffer then holds as many zeros as the
    message had bytes. *)
Theorem NewSecret_makes_fresh_cell (v : T) (bs : list byte) (w : World) :
  Encode v = (bs, None) -> open_err w = None ->
  exists s b,
    out (mattress.NewSecret v w) = Returned (Some s, None)
    /\ secrets w !! s = None
    /\ buffers w !! b = None
    /\ cell (world (mattress.NewSecret v w)) s b (mkLockedBuffer true bs)
    /\ s ∈ finalizers (world (mattress.NewSecret v w))
    /\ bytes.contents (intermediate_buffer w) (world (mattress.NewSecret v w))
       = zeros (length bs).
Proof.
  intros Henc Hopen.
  pose proof (Encode_nonempty v bs Henc) as Hne.
  rewrite (NewSecret_success v w bs Henc Hne Hopen).
  exists (fresh (dom (secrets w))), (fresh (dom (buffers w))).
  cbn [out world].
  split; [reflexivity|]. split; [apply fresh_lookup|].
  split; [apply fresh_lookup|].
  split; [apply (constructed_cell v bs w Henc)|].
  split.
  - unfold constructed. cbn [finalizers]. set_solver.
  - unfold bytes.contents, constructed, intermediate_buffer. cbn [slices].
    by rewrite lookup_insert_eq.
Qed.

(** X2: When the encoding succeeds and the enclave does not open, [NewSecret]
    returns a nil secret with the error of [Open]; no locked buffer,
    [Secret] struct or finalizer is made, and the intermediate buffer is
    wiped. *)
Theorem NewSecret_open_error (v : T) (bs : list byte) (e : error) (w : World) :
  Encode v = (bs, None) -> open_err w = Some e ->
  out (mattress.NewSecret v w) = Returned (None, Some e)
  /\ buffers (world (mattress.NewSecret v w)) = buffers w
  /\ secrets (world (mattress.NewSecret v w)) = secrets w
  /\ finalizers (world (mattress.NewSecret v w)) = finalizers w
  /\ events (mattress.NewSecret v w) = []
  /\ bytes.contents (intermediate_buffer w) (world (mattress.NewSecret v w))
     = zeros (length bs).
Proof.
  intros Henc Hopen.
  pose proof (Encode_nonempty v bs Henc) as Hne.
  rewrite (NewSecret_open_fails v w bs e Henc Hne Hopen).
  cbn [out world events]. repeat split.
  unfold intermediate_buffer. apply contents_insert.
Qed.

End AllocationLaws.

Lemma NewSecret_makes_fresh_cell_witness :
  Encode "swordfish"
  = (x0c :: x00 :: String.list_byte_of_string "swordfish", None)
  /\ open_err one_secret = None
  /\ exists s b,
      out (mattress.NewSecret "swordfish" one_secret) = Returned (Some s, None)
      /\ secrets one_secret !! s = None
      /\ buffers one_secret !! b = None
      /\ cell (world (mattress.NewSecret "swordfish" one_secret)) s b
           (mkLockedBuffer true (x0c :: x00 :: String.list_byte_of_string "swordfish"))
      /\ s ∈ finalizers (world (mattress.NewSecret "swordfish" one_secret))
      /\ bytes.contents (intermediate_buffer one_secret)
           (world (mattress.NewSecret "swordfish" one_secret))
         = zeros (length (x0c :: x00 :: String.list_byte_of_string "swordfish")).
Proof.
  split; [reflexivity|]. split; [reflexivity|].
  apply (NewSecret_makes_fresh_cell (T := string) "swordfish"
           (x0c :: x00 :: String.list_byte_of_string "swordfish") one_secret);
    reflexivity.
Defined.

Lemma NewSecret_open_error_witness :
  Encode "hunter2" = (x0c :: x00 :: String.list_byte_of_string "hunter2", None)
  /\ open_err (failing_world "decryption failed") = Some "decryption failed"
  /\ out (mattress.NewSecret "hunter2" (failing_world "decryption failed"))
     = Returned (None, Some "decryption failed")
  /\ buffers (world (mattress.NewSecret "hunter2" (failing_world "decryption failed")))
     = buffers (failing_world "decryption failed")
  /\ secrets (world (mattress.NewSecret "hunter2" (failing_world "decryption failed")))
     = secrets (failing_world "decryption failed")
  /\ finalizers (world (mattress.NewSecret "hunter2" (failing_world "decryption failed")))
     = finalizers (failing_world "decryption failed")
  /\ events (mattress.NewSecret "hunter2" (failing_world "decryption failed")) = []
  /\ bytes.contents (intermediate_buffer (failing_world "decryption failed"))
       (world (mattress.NewSecret "hunter2" (failing_world "decryption failed")))
     = zeros (length (x0c :: x00 :: String.list_byte_of_string "hunter2")).
Proof.
  split; [reflexivity|]. split; [reflexivity|].
  apply (NewSecret_open_error (T := string) "hunter2"
           (x0c :: x00 :: String.list_byte_of_string "hunter2")
           "decryption failed" (failing_world "decryption failed"));
    reflexivity.
Defined.

(** ** Exposure on any receiver *)

Lemma load_missing a w :
  secrets w !! a = None ->
  load (Some a) w = mkRun (Panicked nil_dereference) w [].
Proof.
  intros Ha. unfold load.
  rewrite (bind_eq _ _ w w w []) by reflexivity.
  by rewrite Ha.
Qed.

Lemma Bytes_dangling bp w :
  dangling w bp ->
  memguard.Bytes bp w = mkRun (Panicked nil_dereference) w [].
Proof.
  destruct bp as [b|]; [|reflexivity]. cbn [dangling]. intros Hb.
  unfold memguard.Bytes.
  rewrite (bind_eq _ _ w w w []) by reflexivity.
  by rewrite Hb.
Qed.

Lemma buffer_cases (w : World) (bp : pointer) :
  dangling w bp \/ exists b lb, bp = Some b /\ buffers w !! b = Some lb.
Proof.
  destruct bp as [b|]; [|by left]. cbn [dangling].
  destruct (buffers w !! b) as [lb|] eqn:Hb; [right|left]; eauto.
Qed.

Section AnyReceiver.

Context {T : Type} `{Gob T}.

Lemma Expose_v1_run s sec b lb w :
  secrets w !! s = Some sec -> buffer sec = Some b ->
  buffers w !! b = Some lb ->
  mattress_v1.Expose (T := T) (Some s) w =
  mkRun (Returned (fst (Decode (region lb) zero_value))) w [EvBytes b].
Proof.
  intros Hs Hb Hlb. unfold mattress_v1.Expose, region.
  erewrite bind_eq by (by apply load_run).
  rewrite Hb. erewrite bind_eq by (by apply Bytes_run).
  by destruct (Decode _ zero_value).
Qed.

Lemma Expose_v1_dangling s sec w :
  secrets w !! s = Some sec -> dangling w (buffer sec) ->
  mattress_v1.Expose (T := T) (Some s) w =
  mkRun (Panicked nil_dereference) w [].
Proof.
  intros Hs Hb. unfold mattress_v1.Expose.
  erewrite bind_eq by (by apply load_run).
  by erewrite bind_panicked by (by apply Bytes_dangling).
Qed.

Lemma Expose_dangling s bp w :
  secrets w !! s = Some (mkSecret bp false) -> dangling w bp ->
  mattress.Expose (T := T) (Some s) w =
  mkRun (Panicked nil_dereference) w [EvLock s; EvUnlock s].
Proof.
  intros Hs Hb. unfold mattress.Expose.
  erewrite bind_eq by (by eapply Lock_run).
  unfold defer.
  erewrite bind_eq by (apply load_run; apply lookup_insert_eq).
  cbn [buffer].
  erewrite bind_panicked by (by apply Bytes_dangling).
  cbn [out world events app].
  erewrite Unlock_run by apply lookup_insert_eq.
  cbn [out world events app].
  destruct w as [sl en bu se fi oe]. simplify_world.
  by rewrite insert_insert_eq, insert_id.
Qed.

Lemma Expose_missing a w :
  secrets w !! a = None ->
  mattress.Expose (T := T) (Some a) w = mkRun (Panicked nil_dereference) w [].
Proof.
  intros Ha. unfold mattress.Expose.
  erewrite bind_panicked; [reflexivity|].
  unfold sync.Lock. by erewrite bind_panicked by (by apply load_missing).
Qed.

(** The ways a call of [Expose] can go. *)
Lemma Expose_cases (s : pointer) (w : World) :
  (exists v evs, mattress.Expose (T := T) s w = mkRun (Returned v) w evs)
  \/ (exists evs, mattress.Expose (T := T) s w
                  = mkRun (Panicked nil_dereference) w evs)
  \/ mattress.Expose (T := T) s w = mkRun Blocked w [].
Proof.
  destruct s as [a|]; [|right; left; by eexists].
  destruct (secrets w !! a) as [[bp [|]]|] eqn:Hs.
  - right. right. exact (Expose_blocks a bp w Hs).
  - destruct (buffer_cases w bp) as [Hb|(b & lb & -> & Hlb)].
    + right. left. eexists. exact (Expose_dangling a bp w Hs Hb).
    + left. eexists _, _. exact (Expose_run a b lb w Hs Hlb).
  - right. left. eexists. exact (Expose_missing a w Hs).
Qed.

Lemma Expose_world (s : pointer) (w : World) :
  world (mattress.Expose (T := T) s w) = w.
Proof.
  destruct (Expose_cases s w) as [(v & evs & Hr)|[(evs & Hr)|Hr]];
    by rewrite Hr.
Qed.

(** X4: [Expose] never changes the store, on any receiver in any world,
    whether it returns, panics or blocks: a mutex it took is released
    by the deferred [Unlock] also when reading the buffer panics; and
    the only panic it can end in is the nil dereference. *)
Theorem Expose_leaves_world (s : pointer) (w : World) :
  world (mattress.Expose (T := T) s w) = w
  /\ (forall msg, out (mattress.Expose (T := T) s w) = Panicked msg ->
                  msg = nil_dereference).
Proof.
  split; [apply Expose_world|]. intros msg.
  destruct (Expose_cases s w) as [(v & evs & Hr)|[(evs & Hr)|Hr]];
    rewrite Hr; cbn [out]; congruence.
Qed.

(** X5: [Expose] on a [Secret] struct whose buffer is nil (one [NewSecret]
    did not make) panics on the nil pointer, after it has taken the mutex
    and with the mutex released again. *)
Theorem Expose_nil_buffer (s : addr) (w : World) :
  secrets w !! s = Some (mkSecret None false) ->
  mattress.Expose (T := T) (Some s) w =
  mkRun (Panicked nil_dereference) w [EvLock s; EvUnlock s].
Proof. intros Hs. by apply (Expose_dangling s None w Hs). Qed.

(** X6: The two revisions of [Expose] agree on every secret whose mutex is
    free: same result or panic, same store; the later one makes the
    accesses of the earlier one between a [Lock] and an [Unlock]. *)
Theorem Expose_revisions_agree (s : addr) (bp : pointer) (w : World) :
  secrets w !! s = Some (mkSecret bp false) ->
  out (mattress.Expose (T := T) (Some s) w)
  = out (mattress_v1.Expose (T := T) (Some s) w)
  /\ world (mattress.Expose (T := T) (Some s) w)
     = world (mattress_v1.Expose (T := T) (Some s) w)
  /\ events (mattress.Expose (T := T) (Some s) w)
     = EvLock s :: events (mattress_v1.Expose (T := T) (Some s) w)
       ++ [EvUnlock s].
Proof.
  intros Hs. destruct (buffer_cases w bp) as [Hb|(b & lb & -> & Hlb)].
  - rewrite (Expose_dangling s bp w Hs Hb).
    by rewrite (Expose_v1_dangling s _ w Hs Hb).
  - rewrite (Expose_run s b lb w Hs Hlb).
    by rewrite (Expose_v1_run s _ b lb w Hs eq_refl Hlb).
Qed.

End AnyReceiver.

Lemma Expose_nil_buffer_witness :
  secrets blank_secret !! 7 = Some (mkSecret None false)
  /\ mattress.Expose (T := string) (Some 7) blank_secret
     = mkRun (Panicked nil_dereference) blank_secret [EvLock 7; EvUnlock 7].
Proof.
  split; [reflexivity|].
  apply (Expose_nil_buffer (T := string) 7 blank_secret). reflexivity.
Defined.

Lemma Expose_revisions_agree_witness :
  secrets one_secret !! 0 = Some (mkSecret (Some 0) false)
  /\ out (mattress.Expose (T := string) (Some 0) one_secret)
     = out (mattress_v1.Expose (T := string) (Some 0) one_secret)
  /\ world (mattress.Expose (T := string) (Some 0) one_secret)
     = world (mattress_v1.Expose (T := string) (Some 0) one_secret)
  /\ events (mattress.Expose (T := string) (Some 0) one_secret)
     = EvLock 0 :: events (mattress_v1.Expose (T := string) (Some 0) one_secret)
       ++ [EvUnlock 0].
Proof.
  split; [reflexivity|].
  apply (Expose_revisions_agree (T := string) 0 (Some 0) one_secret).
  reflexivity.
Defined.

(** ** Destruction *)

Lemma Destroy_dangling bp w :
  dangling w bp ->
  memguard.Destroy bp w = mkRun (Panicked nil_dereference) w [].
Proof.
  destruct bp as [b|]; [|reflexivity]. cbn [dangling]. intros Hb.
  unfold memguard.Destroy.
  rewrite (bind_eq _ _ w w w []) by reflexivity.
  by rewrite Hb.
Qed.

(** [zero] either finds the locked buffer of its receiver, or panics on a
    nil pointer and changes nothing. *)
Lemma zero_cases (s : pointer) (w : World) :
  (exists a sec b lb, s = Some a /\ secrets w !! a = Some sec
                      /\ buffer sec = Some b /\ buffers w !! b = Some lb)
  \/ mattress.zero s w = mkRun (Panicked nil_dereference) w [].
Proof.
  destruct s as [a|]; [|by right].
  destruct (secrets w !! a) as [sec|] eqn:Hs.
  - destruct (buffer_cases w (buffer sec)) as [Hb|(b & lb & Hb & Hlb)].
    + right. unfold mattress.zero.
      erewrite bind_eq by (by apply load_run).
      by rewrite (Destroy_dangling _ w Hb).
    + left. by exists a, sec, b, lb.
  - right. unfold mattress.zero.
    by erewrite bind_panicked by (by apply load_missing).
Qed.

(** X7: [zero] destroys the locked buffer of its receiver and nothing else:
    afterwards the buffer is not alive and reads as no bytes, every other
    locked buffer is as it was, and so are the slices, the enclaves, the
    [Secret] structs (mutexes too) and the finalizers. *)
Theorem zero_destroys_one_buffer
    (s b : addr) (sec : Secret) (lb : LockedBuffer) (w : World) :
  secrets w !! s = Some sec -> buffer sec = Some b ->
  buffers w !! b = Some lb ->
  (exists lb', buffers (world (mattress.zero (Some s) w)) !! b = Some lb'
               /\ alive lb' = false /\ region lb' = [])
  /\ (forall b', b' <> b ->
        buffers (world (mattress.zero (Some s) w)) !! b' = buffers w !! b')
  /\ slices (world (mattress.zero (Some s) w)) = slices w
  /\ enclaves (world (mattress.zero (Some s) w)) = enclaves w
  /\ secrets (world (mattress.zero (Some s) w)) = secrets w
  /\ finalizers (world (mattress.zero (Some s) w)) = finalizers w.
Proof.
  intros Hs Hb Hlb. rewrite (zero_run s sec b lb w Hs Hb Hlb). cbn [world].
  destruct (alive lb) eqn:Halive.
  - split.
    + eexists. split; [apply lookup_insert_eq|]. by split.
    + split; [|done]. intros b' Hne. by apply lookup_insert_ne.
  - split; [|done]. exists lb. split; [done|]. split; [done|].
    unfold region. by rewrite Halive.
Qed.

Lemma zero_destroys_one_buffer_witness :
  secrets two_secrets !! 0 = Some (mkSecret (Some 0) false)
  /\ buffers two_secrets !! 0
     = Some (mkLockedBuffer true (x0c :: x00 :: String.list_byte_of_string "hunter2"))
  /\ (exists lb', buffers (world (mattress.zero (Some 0) two_secrets)) !! 0 = Some lb'
                  /\ alive lb' = false /\ region lb' = [])
  /\ (forall b', b' <> 0 ->
        buffers (world (mattress.zero (Some 0) two_secrets)) !! b'
        = buffers two_secrets !! b')
  /\ slices (world (mattress.zero (Some 0) two_secrets)) = slices two_secrets
  /\ enclaves (world (mattress.zero (Some 0) two_secrets)) = enclaves two_secrets
  /\ secrets (world (mattress.zero (Some 0) two_secrets)) = secrets two_secrets
  /\ finalizers (world (mattress.zero (Some 0) two_secrets)) = finalizers two_secrets.
Proof.
  split; [reflexivity|]. split; [reflexivity|].
  apply (zero_destroys_one_buffer 0 0 (mkSecret (Some 0) false)
           (mkLockedBuffer true (x0c :: x00 :: String.list_byte_of_string "hunter2"))
           two_secrets); reflexivity.
Defined.

(** ** The finalizer *)

Lemma run_finalizer_set s w :
  s ∈ finalizers w ->
  mattress.run_finalizer s w =
  mattress.zero (Some s) (set_finalizers (fun fs => fs ∖ {[s]}) w).
Proof.
  intros Hin. unfold mattress.run_finalizer.
  rewrite (bind_eq _ _ w w w []) by reflexivity.
  destruct (decide (s ∈ finalizers w)) as [_|Hn]; [|done].
  erewrite bind_eq by reflexivity.
  cbn [out world events app]. apply (f_equal (fun r => r)).
  by destruct (mattress.zero _ _).
Qed.

Lemma run_finalizer_unset s w :
  s ∉ finalizers w ->
  mattress.run_finalizer s w = mkRun (Returned tt) w [].
Proof.
  intros Hin. unfold mattress.run_finalizer.
  rewrite (bind_eq _ _ w w w []) by reflexivity.
  by destruct (decide (s ∈ finalizers w)).
Qed.



(** ** What every sequence of calls keeps *)

Section Invariant.

Context {T : Type} `{Gob T}.

Lemma well_formed_start (oe : option error) : well_formed (T := T) (start oe).
Proof.
  split; [|split].
  - intros s sec Hs. cbn in Hs. by rewrite lookup_empty in Hs.
  - intros s1 s2 sec1 sec2 Hs1. cbn in Hs1. by rewrite lookup_empty in Hs1.
  - intros s Hin. cbn in Hin. by apply not_elem_of_empty in Hin.
Qed.

(** Only the secrets, the locked buffers and the finalizers matter. *)
Lemma well_formed_frame (w w' : World) :
  secrets w' = secrets w -> buffers w' = buffers w ->
  finalizers w' ⊆ finalizers w ->
  well_formed (T := T) w -> well_formed (T := T) w'.
Proof.
  intros Hse Hbu Hfi (Hcells & Hinj & Hfin).
  unfold well_formed. rewrite Hse, Hbu.
  split; [exact Hcells|]. split; [exact Hinj|].
  intros s Hin. apply Hfin, Hfi, Hin.
Qed.

Lemma well_formed_destroy (b : addr) (lb : LockedBuffer) (w : World) :
  buffers w !! b = Some lb ->
  well_formed (T := T) w ->
  well_formed (T := T) (set_buffers <[b := mkLockedBuffer false []]> w).
Proof.
  intros Hlb (Hcells & Hinj & Hfin).
  split; [|split]; [|exact Hinj|exact Hfin].
  intros s sec Hs. destruct (Hcells s sec Hs) as (Hm & b0 & lb0 & Hb0 & Hlb0 & Hk).
  split; [exact Hm|]. cbn [buffers set_buffers].
  destruct (decide (b = b0)) as [->|Hne].
  - exists b0, (mkLockedBuffer false []).
    split; [exact Hb0|]. split; [apply lookup_insert_eq|reflexivity].
  - exists b0, lb0. split; [exact Hb0|]. split; [|exact Hk].
    by rewrite lookup_insert_ne.
Qed.

Lemma well_formed_constructed (v : T) (bs : list byte) (w : World) :
  Encode v = (bs, None) ->
  well_formed (T := T) w -> well_formed (T := T) (constructed bs w).
Proof.
  intros Henc (Hcells & Hinj & Hfin).
  assert (forall s sec, secrets w !! s = Some sec ->
            buffer sec <> Some (fresh (dom (buffers w)))) as Hold.
  { intros s sec Hs Heq.
    destruct (Hcells s sec Hs) as (_ & b0 & lb0 & Hb0 & Hlb0 & _).
    rewrite Heq in Hb0. injection Hb0 as <-.
    by rewrite fresh_lookup in Hlb0. }
  split; [|split]; unfold constructed; cbn [secrets buffers finalizers].
  - intros s sec Hs.
    destruct (decide (fresh (dom (secrets w)) = s)) as [<-|Hne].
    + rewrite lookup_insert_eq in Hs. injection Hs as <-.
      split; [reflexivity|].
      exists (fresh (dom (buffers w))), (mkLockedBuffer true bs).
      split; [reflexivity|]. split; [apply lookup_insert_eq|].
      by exists v.
    + rewrite lookup_insert_ne in Hs by exact Hne.
      destruct (Hcells s sec Hs) as (Hm & b0 & lb0 & Hb0 & Hlb0 & Hk).
      split; [exact Hm|]. exists b0, lb0. split; [exact Hb0|].
      split; [|exact Hk].
      rewrite lookup_insert_ne; [exact Hlb0|].
      by apply (lookup_fresh_ne _ _ lb0).
  - intros s1 s2 sec1 sec2 Hs1 Hs2 Heq.
    destruct (decide (fresh (dom (secrets w)) = s1)) as [<-|Hne1];
      destruct (decide (fresh (dom (secrets w)) = s2)) as [<-|Hne2];
      try reflexivity.
    + rewrite lookup_insert_eq in Hs1. injection Hs1 as <-.
      rewrite lookup_insert_ne in Hs2 by exact Hne2.
      cbn [buffer] in Heq. symmetry in Heq. by apply Hold in Hs2.
    + rewrite lookup_insert_eq in Hs2. injection Hs2 as <-.
      rewrite lookup_insert_ne in Hs1 by exact Hne1.
      cbn [buffer] in Heq. by apply Hold in Hs1.
    + rewrite lookup_insert_ne in Hs1 by exact Hne1.
      rewrite lookup_insert_ne in Hs2 by exact Hne2.
      by apply (Hinj s1 s2 sec1 sec2).
  - intros s Hin.
    destruct (decide (fresh (dom (secrets w)) = s)) as [<-|Hne].
    + rewrite lookup_insert_eq. by eexists.
    + rewrite lookup_insert_ne by exact Hne. apply Hfin.
      apply elem_of_union in Hin as [Hin|Hin]; [|exact Hin].
      apply elem_of_singleton in Hin. by subst.
Qed.

Lemma well_formed_NewSecret (v : T) (w : World) :
  well_formed (T := T) w ->
  well_formed (T := T) (world (mattress.NewSecret v w)).
Proof.
  intros Hwf. destruct (Encode v) as [bs [e|]] eqn:Henc.
  { rewrite (NewSecret_encode_fails v w bs e Henc). exact Hwf. }
  destruct bs as [|b0 bs'].
  { rewrite (NewSecret_empty_run v w Henc). exact Hwf. }
  destruct (open_err w) as [e|] eqn:Hopen.
  { erewrite NewSecret_open_fails by (try exact Henc; try exact Hopen; done).
    exact Hwf. }
  erewrite NewSecret_success by (try exact Henc; try exact Hopen; done).
  cbn [world]. by apply (well_formed_constructed v).
Qed.

Lemma well_formed_zero (s : pointer) (w : World) :
  well_formed (T := T) w -> well_formed (T := T) (world (mattress.zero s w)).
Proof.
  intros Hwf.
  destruct (zero_cases s w) as [(a & sec & b & lb & -> & Hs & Hb & Hlb)|Hpanic].
  - rewrite (zero_run a sec b lb w Hs Hb Hlb). cbn [world].
    destruct (alive lb); [|exact Hwf]. by apply (well_formed_destroy b lb).
  - by rewrite Hpanic.
Qed.

Lemma well_formed_finalizer (s : addr) (w : World) :
  well_formed (T := T) w ->
  well_formed (T := T) (world (mattress.run_finalizer s w)).
Proof.
  intros Hwf. destruct (decide (s ∈ finalizers w)) as [Hin|Hout].
  - rewrite (run_finalizer_set s w Hin). apply well_formed_zero.
    apply (well_formed_frame w); try reflexivity; [|exact Hwf].
    cbn [finalizers set_finalizers]. apply subseteq_difference_l. reflexivity.
  - by rewrite (run_finalizer_unset s w Hout).
Qed.

Lemma well_formed_call (c : Call T) (w : World) :
  well_formed (T := T) w -> well_formed (T := T) (call c w).
Proof.
  intros Hwf. destruct c as [v|s|s|s|s]; cbn [call].
  - by apply well_formed_NewSecret.
  - by rewrite Expose_world.
  - exact Hwf.
  - by apply well_formed_zero.
  - by apply well_formed_finalizer.
Qed.

Lemma well_formed_after (cs : list (Call T)) (w : World) :
  well_formed (T := T) w -> well_formed (T := T) (after cs w).
Proof.
  revert w. induction cs as [|c cs IH]; intros w Hwf; [exact Hwf|].
  cbn [after foldl]. apply IH. by apply well_formed_call.
Qed.

(** X9: From a world with no secrets, every sequence of calls ([NewSecret],
    [Expose], [String], [zero], finalizers, on any arguments and however
    each call ends) leaves every [Secret] with a free mutex and a locked
    buffer that no other [Secret] has and that is destroyed and empty or
    holds a message of the encoder; finalizers are set on secrets only. *)
Theorem calls_keep_well_formed (cs : list (Call T)) (oe : option error) :
  well_formed (T := T) (after cs (start oe)).
Proof. apply well_formed_after, well_formed_start. Qed.

End Invariant.

(** ** Secrets among other secrets *)

Section Independence.

Context {T : Type} `{Gob T}.

(** X11: In a world the package made, [zero] on one receiver leaves what
    [Expose] returns on every other secret. *)
Theorem zero_leaves_other_secrets
    (cs : list (Call T)) (oe : option error)
    (s1 : pointer) (s2 : addr) (sec2 : Secret) :
  secrets (after cs (start oe)) !! s2 = Some sec2 ->
  s1 <> Some s2 ->
  out (mattress.Expose (T := T) (Some s2)
         (world (mattress.zero s1 (after cs (start oe)))))
  = out (mattress.Expose (T := T) (Some s2) (after cs (start oe))).
Proof.
  intros Hs2 Hne.
  pose proof (well_formed_after cs _ (well_formed_start oe)) as (Hcells & Hinj & _).
  set (w := after cs (start oe)) in *.
  destruct (zero_cases s1 w) as [(a & sec & b & lb & -> & Hs & Hb & Hlb)|Hpanic];
    [|by rewrite Hpanic].
  rewrite (zero_run a sec b lb w Hs Hb Hlb). cbn [world].
  destruct (alive lb); [|reflexivity].
  destruct (Hcells s2 sec2 Hs2) as (Hm & b2 & lb2 & Hb2 & Hlb2 & _).
  destruct sec2 as [bp2 m2]. cbn [buffer mutex] in Hb2, Hm. subst bp2 m2.
  assert (b <> b2) as Hbne.
  { intros <-. apply Hne. f_equal.
    apply (Hinj a s2 sec (mkSecret (Some b) false) Hs Hs2). exact Hb. }
  rewrite (Expose_run s2 b2 lb2 w Hs2 Hlb2).
  rewrite (Expose_run s2 b2 lb2 (set_buffers <[b := mkLockedBuffer false []]> w) Hs2).
  - reflexivity.
  - cbn [buffers set_buffers]. by rewrite lookup_insert_ne.
Qed.

Lemma cell_NewSecret (v : T) (s b : addr) (lb : LockedBuffer) (w : World) :
  cell w s b lb -> cell (world (mattress.NewSecret v w)) s b lb.
Proof.
  intros [Hs Hlb]. destruct (NewSecret_grows v w) as [Hbu Hse].
  split; [exact (lookup_weaken _ _ _ _ Hs Hse)|exact (lookup_weaken _ _ _ _ Hlb Hbu)].
Qed.



(** A destroyed locked buffer stays destroyed under every call. *)
Lemma call_keeps_destroyed (c : Call T) (s b : addr) (lb : LockedBuffer) (w : World) :
  cell w s b lb -> alive lb = false -> cell (call c w) s b lb.
Proof.
  intros Hcell Hdead.
  assert (forall p w', secrets w' = secrets w -> buffers w' = buffers w ->
            cell (world (mattress.zero p w')) s b lb) as Hzero.
  { intros p w' Hse Hbu. destruct Hcell as [Hs Hlb].
    destruct (zero_cases p w') as [(a & sec & b' & lb' & -> & Ha & Hb' & Hlb')|Hpanic].
    - rewrite (zero_run a sec b' lb' w' Ha Hb' Hlb'). cbn [world].
      rewrite Hbu in Hlb'.
      destruct (alive lb') eqn:Halive; unfold cell;
        cbn [secrets buffers set_buffers]; rewrite Hse, Hbu; [|by split].
      split; [exact Hs|]. rewrite lookup_insert_ne; [exact Hlb|].
      intros ->. rewrite Hlb in Hlb'. injection Hlb' as ->. congruence.
    - rewrite Hpanic. unfold cell. cbn [world]. by rewrite Hse, Hbu. }
  destruct c as [v|p|p|p|a]; cbn [call].
  - by apply cell_NewSecret.
  - by rewrite Expose_world.
  - exact Hcell.
  - by apply Hzero.
  - destruct (decide (a ∈ finalizers w)) as [Hin|Hout].
    + rewrite (run_finalizer_set a w Hin). by apply Hzero.
    + by rewrite (run_finalizer_unset a w Hout).
Qed.

Lemma after_keeps_destroyed
    (cs : list (Call T)) (s b : addr) (lb : LockedBuffer) (w : World) :
  cell w s b lb -> alive lb = false -> cell (after cs w) s b lb.
Proof.
  revert w. induction cs as [|c cs IH]; intros w Hcell Hdead; [exact Hcell|].
  cbn [after foldl]. apply IH; [|exact Hdead]. by apply call_keeps_destroyed.
Qed.

End Independence.

Section Lifetime.

Context {T : Type} `{GobLaws T}.

(** X10: In a world the package made, [Expose] on any [Secret] there is
    returns: it neither panics nor waits, and what it returns is the zero
    value of [T] or a value the encoder has a message for. *)
Theorem Expose_returns_after_calls
    (cs : list (Call T)) (oe : option error) (s : addr) (sec : Secret) :
  secrets (after cs (start oe)) !! s = Some sec ->
  exists v,
    out (mattress.Expose (T := T) (Some s) (after cs (start oe))) = Returned v
    /\ (v = zero_value \/ exists bs, Encode v = (bs, None)).
Proof.
  intros Hs.
  pose proof (well_formed_after cs _ (well_formed_start oe)) as (Hcells & _ & _).
  destruct (Hcells s sec Hs) as (Hm & b & lb & Hb & Hlb & Hk).
  destruct sec as [bp m]. cbn [buffer mutex] in Hb, Hm. subst bp m.
  rewrite (Expose_run s b lb _ Hs Hlb). cbn [out].
  unfold kept, region in *. destruct (alive lb).
  - destruct Hk as [v Hv]. exists v.
    rewrite (Decode_Encode v _ Hv). split; [reflexivity|]. right. by eexists.
  - exists zero_value. rewrite Decode_EOF. split; [reflexivity|by left].
Qed.


(** X13: Destruction is final: once [zero] has run on a cell, [Expose] on it
    returns the zero value of [T] after every sequence of later calls. *)
Theorem destroyed_stays_destroyed
    (cs : list (Call T)) (s b : addr) (lb : LockedBuffer) (w : World) :
  cell w s b lb ->
  out (mattress.Expose (T := T) (Some s)
         (after cs (world (mattress.zero (Some s) w))))
  = Returned zero_value.
Proof.
  intros Hcell.
  pose proof (zero_destroys s b lb w Hcell) as Hdead.
  assert (alive (if alive lb then mkLockedBuffer false [] else lb) = false)
    as Halive by (by destruct (alive lb) eqn:Ha).
  destruct (after_keeps_destroyed cs _ _ _ _ Hdead Halive) as [Hs Hlb].
  rewrite (Expose_run _ _ _ _ Hs Hlb). cbn [out]. unfold region.
  rewrite Halive. by rewrite Decode_EOF.
Qed.

End Lifetime.

Lemma zero_leaves_other_secrets_witness :
  secrets (after [CallNewSecret "hunter2"; CallNewSecret "swordfish"] (start None)) !! 1
  = Some (mkSecret (Some 1) false)
  /\ Some 0 <> Some 1
  /\ out (mattress.Expose (T := string) (Some 1)
            (world (mattress.zero (Some 0)
                      (after [CallNewSecret "hunter2"; CallNewSecret "swordfish"]
                         (start None)))))
     = out (mattress.Expose (T := string) (Some 1)
              (after [CallNewSecret "hunter2"; CallNewSecret "swordfish"]
                 (start None))).
Proof.
  split; [reflexivity|]. split; [discriminate|].
  apply (zero_leaves_other_secrets (T := string)
           [CallNewSecret "hunter2"; CallNewSecret "swordfish"] None
           (Some 0) 1 (mkSecret (Some 1) false)); [reflexivity|discriminate].
Defined.

Lemma Expose_returns_after_calls_witness :
  secrets (after [CallNewSecret "hunter2"; CallZero (Some 0)] (start None)) !! 0
  = Some (mkSecret (Some 0) false)
  /\ exists v,
      out (mattress.Expose (T := string) (Some 0)
             (after [CallNewSecret "hunter2"; CallZero (Some 0)] (start None)))
      = Returned v
      /\ (v = zero_value \/ exists bs, Encode v = (bs, None)).
Proof.
  split; [reflexivity|].
  apply (Expose_returns_after_calls (T := string)
           [CallNewSecret "hunter2"; CallZero (Some 0)] None 0
           (mkSecret (Some 0) false)).
  reflexivity.
Defined.


Lemma destroyed_stays_destroyed_witness :
  cell one_secret 0 0
       (mkLockedBuffer true (x0c :: x00 :: String.list_byte_of_string "hunter2"))
  /\ out (mattress.Expose (T := string) (Some 0)
            (after [CallNewSecret "swordfish"; CallExpose (Some 0); CallZero (Some 0)]
               (world (mattress.zero (Some 0) one_secret))))
     = Returned "".
Proof.
  split; [split; reflexivity|].
  change (Returned "") with (Returned (zero_value (T := string))).
  apply (destroyed_stays_destroyed (T := string)
           [CallNewSecret "swordfish"; CallExpose (Some 0); CallZero (Some 0)]
           0 0
           (mkLockedBuffer true (x0c :: x00 :: String.list_byte_of_string "hunter2"))
           one_secret).
  split; reflexivity.
Defined.
